(** * Error handling utilities of the agent project

    A shallow embedding of [src/utils/error_handling.py]: the [retry]
    decorator (bounded retry with exponential backoff) and the
    [FallbackRegistry] class (a name-keyed dictionary of substitute
    operations), with the properties the specification states about them. *)

From Stdlib Require Import Ascii.
From stdpp Require Import gmap strings list pretty.
From Equations Require Import Equations.

Open Scope Z_scope.

(** ** Python exceptions and call outcomes *)

(** A raised exception object: its class name, whether the class derives
    from [Exception] (what an [except Exception] clause catches; classes
    such as [KeyboardInterrupt] or [SystemExit] derive from
    [BaseException] only), and the text [str(e)] renders. *)
Record pyexn : Type := PyExn {
  exn_type : string;
  exn_is_Exception : bool;
  exn_str : string
}.

(** What a call produces: a value, or a raised exception. *)
Inductive outcome (V : Type) : Type :=
| Returned (v : V)
| Raised (e : pyexn).
Arguments Returned {V} v.
Arguments Raised {V} e.

Definition ValueError (msg : string) : pyexn := PyExn "ValueError" true msg.
Definition RuntimeError (msg : string) : pyexn := PyExn "RuntimeError" true msg.
Definition KeyboardInterrupt : pyexn := PyExn "KeyboardInterrupt" false "".

(** [class ToolExecutionError(Exception)]: the two attributes its
    [__init__] stores, the text it hands to [Exception.__init__] (which
    is what [str(e)] renders), and the exception object as the handlers
    see it. *)
Record ToolExecutionError : Type := MkToolExecutionError {
  tool_name : string;
  message : string
}.

Definition ToolExecutionError_str (e : ToolExecutionError) : string :=
  "Error executing " +:+ tool_name e +:+ ": " +:+ message e.

Definition ToolExecutionError_exn (e : ToolExecutionError) : pyexn :=
  PyExn "ToolExecutionError" true (ToolExecutionError_str e).

(** [c in s] for a character [c]. *)
Fixpoint mentions (c : ascii) (s : string) : bool :=
  match s with
  | EmptyString => false
  | String a s' => bool_decide (a = c) || mentions c s'
  end.

(** ** The fallback registry *)

Module FallbackRegistry.
Section registry.
(** Fallback functions are opaque to the registry: it stores and hands
    back references. *)
Context {Callable : Type}.

(** The class attribute [_fallbacks], one dictionary shared by every
    use of the class; the classmethods below read and mutate it, so
    each takes the dictionary and returns it with its result. *)
Definition _fallbacks : gmap string Callable := ∅.

(** [cls._fallbacks[tool_name] = fallback_func]; returns [None]. *)
Definition register_fallback (tool_name : string) (fallback_func : Callable)
    (fallbacks : gmap string Callable) : outcome unit * gmap string Callable :=
  (Returned tt, <[tool_name := fallback_func]> fallbacks).

(** [return cls._fallbacks.get(tool_name)]: [dict.get] with the default
    [None], which is Python's answer for a missing key. *)
Definition get_fallback (tool_name : string)
    (fallbacks : gmap string Callable)
    : outcome (option Callable) * gmap string Callable :=
  (Returned (fallbacks !! tool_name), fallbacks).

(** The dictionary after a sequence of registrations, oldest first,
    made on the freshly loaded class. *)
Definition registered (regs : list (string * Callable)) : gmap string Callable :=
  foldl (fun fb r => (register_fallback r.1 r.2 fb).2) _fallbacks regs.

End registry.
End FallbackRegistry.

(** ** The retry decorator *)

Module Retry.

(** What a run of the wrapper does, in the order it does it. *)
Inductive event (V : Type) : Type :=
| EvAttempt (o : outcome V)  (** [func] called inside the [try] *)
| EvFinal (o : outcome V)    (** [func] called after the loop *)
| EvLog (msg : string)       (** [logger_func(msg)] called *)
| EvSleep (d : Z).           (** [time.sleep(d)] waited and returned *)
Arguments EvAttempt {V} o.
Arguments EvFinal {V} o.
Arguments EvLog {V} msg.
Arguments EvSleep {V} d.

Section retry.
(** [A]: the positional and keyword arguments of the call; [V]: what
    the function returns; [St]: whatever state the function reads and
    writes between calls; [Lg]: the state of the logging sink.  The two
    states are apart: the sink does not reach into what the function
    reads. *)
Context {A V St Lg : Type}.

(** The wrapped function: its [__name__] and what a call does. *)
Record operation : Type := Operation {
  op_name : string;
  op_call : A -> St -> outcome V * St
}.

(** A logging sink: called with the message, it returns ([None]) or
    raises ([Some e]). *)
Definition sink : Type := string -> Lg -> option pyexn * Lg.

Record rstate : Type := RState { op_st : St; sink_st : Lg }.

(** Computations of the wrapper: they thread the state, end with a
    value or a raised exception, and emit events. *)
Definition M (X : Type) : Type := rstate -> outcome X * rstate * list (event V).

Definition ret {X} (x : X) : M X := fun s => (Returned x, s, []).

Definition bind {X Y} (m : M X) (k : X -> M Y) : M Y := fun s =>
  match m s with
  | (Returned x, s1, t1) => let '(r, s2, t2) := k x s1 in (r, s2, t1 ++ t2)
  | (Raised e, s1, t1) => (Raised e, s1, t1)
  end.

(** [try: m  except Exception as e: h e]: only the exceptions of [m]
    are caught, and only those that derive from [Exception]. *)
Definition try_except_Exception {X} (m : M X) (h : pyexn -> M X) : M X := fun s =>
  match m s with
  | (Returned x, s1, t1) => (Returned x, s1, t1)
  | (Raised e, s1, t1) =>
      if exn_is_Exception e
      then let '(r, s2, t2) := h e s1 in (r, s2, t1 ++ t2)
      else (Raised e, s1, t1)
  end.

(** One call of [func] with the wrapper's arguments, recorded with [ev]. *)
Definition call (ev : outcome V -> event V) (func : operation) (args : A) : M V := fun s =>
  let '(o, st) := op_call func args (op_st s) in
  (o, RState st (sink_st s), [ev o]).

(** [if logger_func: logger_func(msg)] *)
Definition log (logger_func : option sink) (msg : string) : M unit := fun s =>
  match logger_func with
  | None => (Returned tt, s, [])
  | Some f =>
      let '(r, l) := f msg (sink_st s) in
      (match r with None => Returned tt | Some e => Raised e end,
       RState (op_st s) l, [EvLog msg])
  end.

(** [time.sleep(secs)]: a negative argument raises [ValueError] and no
    time passes; otherwise the wait is made.  [tries], [delay] and
    [backoff] are Python integers here, as the defaults [3], [1] and [2]
    are, so [mdelay *= backoff] is exact. *)
Definition sleep (secs : Z) : M unit := fun s =>
  if decide (secs < 0)
  then (Raised (ValueError "sleep length must be non-negative"), s, [])
  else (Returned tt, s, [EvSleep secs]).

(** The f-string of the handler. *)
Definition retry_msg (func : operation) (mdelay mtries : Z) (e : pyexn) : string :=
  op_name func +:+ " - Retrying in " +:+ pretty mdelay +:+ "s... ("
    +:+ pretty (mtries - 1) +:+ " tries left). Error: " +:+ exn_str e.

#[local] Instance M_ret : MRet M := @ret.
#[local] Instance M_bind : MBind M := fun X Y k m => bind m k.

(** The [while mtries > 0] loop of [wrapper] with the call that follows
    it.  The [return] inside the [try] leaves the wrapper, so what the
    handler falls through to (the next round) is the handler's tail. *)
Equations? wrapper_loop (backoff : Z) (logger_func : option sink)
    (func : operation) (args : A) (mtries mdelay : Z) : M V
    by wf (Z.to_nat mtries) lt :=
  wrapper_loop backoff logger_func func args mtries mdelay with decide (mtries > 0) => {
    | left _ :=
        try_except_Exception (call EvAttempt func args) (fun e =>
          log logger_func (retry_msg func mdelay mtries e) ;;
          sleep mdelay ;;
          wrapper_loop backoff logger_func func args (mtries - 1) (mdelay * backoff));
    | right _ := call EvFinal func args }.
Proof. lia. Qed.

(** The body of [wrapper]: [mtries, mdelay = tries, delay], then the
    loop. *)
Definition wrapper (tries delay backoff : Z) (logger_func : option sink)
    (func : operation) (args : A) : M V :=
  wrapper_loop backoff logger_func func args tries delay.

Definition decorator (tries delay backoff : Z) (logger_func : option sink)
    (func : operation) : A -> M V :=
  wrapper tries delay backoff logger_func func.

Definition retry (tries delay backoff : Z) (logger_func : option sink)
    : operation -> A -> M V :=
  decorator tries delay backoff logger_func.

End retry.
Arguments operation : clear implicits.
Arguments sink : clear implicits.
Arguments rstate : clear implicits.

(** *** Observations on a run *)

Section observe.
Context {A V St Lg : Type}.

(** What the caller of the wrapper gets, the state the run leaves, and
    its events. *)
Definition result {X} (r : outcome X * rstate St Lg * list (event V)) : outcome X := r.1.1.
Definition final {X} (r : outcome X * rstate St Lg * list (event V)) : rstate St Lg := r.1.2.
Definition trace {X} (r : outcome X * rstate St Lg * list (event V)) : list (event V) := r.2.

(** The messages the sink received, in order. *)
Definition logs (t : list (event V)) : list string :=
  omap (fun ev => match ev with EvLog m => Some m | _ => None end) t.

(** The waits performed, in order. *)
Definition waits (t : list (event V)) : list Z :=
  omap (fun ev => match ev with EvSleep d => Some d | _ => None end) t.

(** The outcomes of the calls made inside the [try], in order. *)
Definition attempts (t : list (event V)) : list (outcome V) :=
  omap (fun ev => match ev with EvAttempt o => Some o | _ => None end) t.

(** The outcomes of the calls made after the loop. *)
Definition finals (t : list (event V)) : list (outcome V) :=
  omap (fun ev => match ev with EvFinal o => Some o | _ => None end) t.

(** The outcomes of all calls of the wrapped function, in order. *)
Definition calls (t : list (event V)) : list (outcome V) :=
  omap (fun ev => match ev with
                  | EvAttempt o | EvFinal o => Some o
                  | _ => None
                  end) t.

(** Does a call inside the [try] come after some wait? *)
Fixpoint attempt_after_wait (t : list (event V)) : bool :=
  match t with
  | [] => false
  | EvSleep _ :: t' =>
      bool_decide (attempts t' <> []) || attempt_after_wait t'
  | _ :: t' => attempt_after_wait t'
  end.

(** The state of the wrapped function after [i] calls from [s], and
    the outcome of the call made then (call number [i + 1]). *)
Fixpoint op_run (func : operation A V St) (args : A) (s : St) (i : nat) : St :=
  match i with
  | O => s
  | S j => op_run func args (op_call func args s).2 j
  end.

Definition nth_outcome (func : operation A V St) (args : A) (s : St) (i : nat) : outcome V :=
  (op_call func args (op_run func args s i)).1.


(** A sink that returns whenever it is called; no sink at all counts. *)
Definition sink_quiet (f : sink Lg) : Prop := forall msg l, (f msg l).1 = None.

Definition logger_quiet (logger_func : option (sink Lg)) : Prop :=
  match logger_func with
  | Some f => sink_quiet f
  | None => True
  end.




End observe.

(** *** Sample operations and sinks *)

(** Raises [ValueError("boom")] on every call and counts its calls. *)
Definition always_boom : operation unit string nat :=
  Operation "always_boom" (fun _ c => (Raised (ValueError "boom"), S c)).

(** Raises on calls 1 and 2 and returns ["ok"] from call 3 on. *)
Definition flaky : operation unit string nat :=
  Operation "flaky" (fun _ c =>
    (if decide (c < 2)%nat then Raised (ValueError "boom") else Returned "ok"%string,
     S c)).

(** A sink that keeps the messages it was given, newest first. *)
Definition collect : sink (list string) := fun msg l => (None, msg :: l).

(** A sink that raises whenever it is called. *)
Definition broken_sink : sink unit := fun _ l => (Some (RuntimeError "sink failed"), l).


(** *** Function objects and decorators applied to them *)

Section decorators.
Context {A V : Type}.

(** A function object over the state [W] it reads and writes: what a
    call does and its [__name__] (the [operation]), and its
    [__module__].  [functools.wraps] copies both names to a wrapper. *)
Record pyfunction (W : Type) : Type := PyFunction {
  fn_module : string;
  fn_op : operation A V W
}.
Arguments PyFunction {W} fn_module fn_op.
Arguments fn_module {W} p.
Arguments fn_op {W} p.

(** The f-string of the handler of [log_exceptions]. *)
Definition log_exceptions_msg {W} (func : pyfunction W) (e : pyexn) : string :=
  "Exception in " +:+ op_name (fn_op func) +:+ ": " +:+ exn_str e.

(** [log_exceptions(func)].  [logging name] is
    [logging.getLogger(name).error]: like any call it returns or raises,
    and it works on the same state [W] as the function.  The bare
    [raise] hands on the exception that was caught; an exception of
    [logger.error] itself leaves the handler in its place. *)
Definition log_exceptions {W} (logging : string -> sink W) (func : pyfunction W)
    : pyfunction W :=
  PyFunction (fn_module func)
    (Operation (op_name (fn_op func)) (fun args w =>
       match op_call (fn_op func) args w with
       | (Returned v, w1) => (Returned v, w1)
       | (Raised e, w1) =>
           if exn_is_Exception e
           then
             let '(r, w2) :=
               logging (fn_module func) (log_exceptions_msg func e) w1 in
             (match r with None => Raised e | Some e' => Raised e' end, w2)
           else (Raised e, w1)
       end)).


(** A function that works on the first part of the state only, and a
    sink that works on the second part only. *)
Definition on_fst {W1 W2} (func : pyfunction W1) : pyfunction (W1 * W2) :=
  PyFunction (fn_module func)
    (Operation (op_name (fn_op func)) (fun args w =>
       let '(o, w1) := op_call (fn_op func) args w.1 in (o, (w1, w.2)))).

Definition on_snd {W1 W2} (f : sink W2) : sink (W1 * W2) := fun msg w =>
  let '(r, l) := f msg w.2 in (r, (w.1, l)).

(** The state of a sink after it was given the messages in turn. *)
Fixpoint feed {Lg} (f : sink Lg) (msgs : list string) (l : Lg) : Lg :=
  match msgs with
  | [] => l
  | msg :: msgs' => feed f msgs' (f msg l).2
  end.

(** What [log_exceptions] reports of one outcome: only a failure that
    derives from [Exception]. *)
Definition logged_failure {W} (func : pyfunction W) (o : outcome V) : option string :=
  match o with
  | Raised e => if exn_is_Exception e then Some (log_exceptions_msg func e) else None
  | Returned _ => None
  end.

(** And of the first [i] calls of [func] from [s]. *)
Definition logged_failures {W} (func : pyfunction W) (args : A) (s : W) (i : nat)
    : list string :=
  omap (fun j => logged_failure func (nth_outcome (fn_op func) args s j)) (seq 0 i).



(** A logging system that keeps what its loggers are given, newest
    first, and sample function objects of a module [tools.sample]. *)
Definition caplog : string -> sink (list string) := fun name msg l =>
  (None, (name +:+ ":" +:+ msg) :: l).

End decorators.

Definition boom_function : pyfunction (A:=unit) (V:=string) nat :=
  PyFunction _ "tools.sample" always_boom.

Arguments pyfunction : clear implicits.
Arguments PyFunction {A V W} fn_module fn_op.
Arguments fn_module {A V W} p.
Arguments fn_op {A V W} p.

(** *** The base class of the tools, [src/tools/base_tool.py] *)

Module EnhancedTool.
Section tool.
Context {A W : Type}.

(** What [Tool.__call__] of the framework can hand back: a string,
    [None], or another object, of which the wrapper uses [type(result)]
    as the f-string shows it and [str(result)], a call like any other. *)
Inductive pyvalue : Type :=
| PyStr (s : string)
| PyNone
| PyObject (type_repr : string) (str : outcome string).

Definition type_of (v : pyvalue) : string :=
  match v with
  | PyStr _ => "<class 'str'>"
  | PyNone => "<class 'NoneType'>"
  | PyObject type_repr _ => type_repr
  end.

(** The module's [logger = logging.getLogger("ai_agent.tools")]: the
    two methods the class uses. *)
Record tool_logger : Type := ToolLogger {
  warning : sink W;
  error : sink W
}.

Definition non_string_warning (cls : string) (v : pyvalue) : string :=
  "Tool " +:+ cls +:+ " returned a non-string value: " +:+ type_of v
    +:+ ". Converting to string.".

(** The body of the [try] of [__call__]; [super_call] is
    [super().__call__], [cls] is [self.__class__.__name__]. *)
Definition call_body (cls : string) (logger : tool_logger)
    (super_call : A -> W -> outcome pyvalue * W) (args : A) (w : W)
    : outcome string * W :=
  match super_call args w with
  | (Raised e, w1) => (Raised e, w1)
  | (Returned (PyStr s), w1) => (Returned s, w1)
  | (Returned v, w1) =>
      match warning logger (non_string_warning cls v) w1 with
      | (Some e, w2) => (Raised e, w2)
      | (None, w2) =>
          match v with
          | PyNone => (Returned "No result available."%string, w2)
          | PyObject _ str => (str, w2)
          | PyStr s => (Returned s, w2)
          end
      end
  end.

(** [EnhancedTool.__call__]: the [try] and its [except Exception]. *)
Definition __call__ (cls : string) (logger : tool_logger)
    (super_call : A -> W -> outcome pyvalue * W) (args : A) (w : W)
    : outcome string * W :=
  match call_body cls logger super_call args w with
  | (Returned s, w1) => (Returned s, w1)
  | (Raised e, w1) =>
      if exn_is_Exception e
      then
        match error logger ("Error in tool " +:+ cls +:+ ": " +:+ exn_str e) w1 with
        | (Some e', w2) => (Raised e', w2)
        | (None, w2) =>
            (Returned ("Error executing " +:+ cls +:+ ": " +:+ exn_str e), w2)
        end
      else (Raised e, w1)
  end.

End tool.
Arguments pyvalue : clear implicits.
Arguments tool_logger : clear implicits.
End EnhancedTool.

(** The logger of the tools module over [caplog]. *)
Definition tools_logger : EnhancedTool.tool_logger (list string) :=
  EnhancedTool.ToolLogger (caplog "ai_agent.tools") (caplog "ai_agent.tools").

(** *** One round of the loop *)

Section rounds.
Context {A V St Lg : Type}.
Implicit Types (func : operation A V St) (args : A) (s : rstate St Lg).
Implicit Types (logger_func : option (sink Lg)) (mtries mdelay backoff : Z).

(** [mtries <= 0]: the loop is over, the call after it is made. *)
Lemma wrapper_loop_exit backoff logger_func func args mtries mdelay s :
  mtries <= 0 ->
  wrapper_loop backoff logger_func func args mtries mdelay s
  = call EvFinal func args s.
Proof.
  intros Hle. rewrite wrapper_loop_equation_1.
  destruct (decide (mtries > 0)) as [Hgt|Hn]; [lia|reflexivity].
Qed.

(** The call in the [try] returns: so does the wrapper. *)
Lemma wrapper_loop_return backoff logger_func func args mtries mdelay s v st :
  0 < mtries ->
  op_call func args (op_st s) = (Returned v, st) ->
  wrapper_loop backoff logger_func func args mtries mdelay s
  = (Returned v, RState st (sink_st s), [EvAttempt (Returned v)]).
Proof.
  intros Hgt Hcall. rewrite wrapper_loop_equation_1.
  destruct (decide (mtries > 0)) as [Hp|Hn]; [|lia].
  cbn. unfold try_except_Exception, call. rewrite Hcall. reflexivity.
Qed.

(** The call raises something [except Exception] does not catch. *)
Lemma wrapper_loop_uncaught backoff logger_func func args mtries mdelay s e st :
  0 < mtries ->
  op_call func args (op_st s) = (Raised e, st) ->
  exn_is_Exception e = false ->
  wrapper_loop backoff logger_func func args mtries mdelay s
  = (Raised e, RState st (sink_st s), [EvAttempt (Raised e)]).
Proof.
  intros Hgt Hcall He. rewrite wrapper_loop_equation_1.
  destruct (decide (mtries > 0)) as [Hp|Hn]; [|lia].
  cbn. unfold try_except_Exception, call. rewrite Hcall, He. reflexivity.
Qed.

(** The call raises an [Exception]: the handler runs. *)
Lemma wrapper_loop_caught backoff logger_func func args mtries mdelay s e st :
  0 < mtries ->
  op_call func args (op_st s) = (Raised e, st) ->
  exn_is_Exception e = true ->
  wrapper_loop backoff logger_func func args mtries mdelay s
  = let lg := log logger_func (retry_msg func mdelay mtries e)
                  (RState st (sink_st s)) in
    match result lg with
    | Raised e' => (Raised e', final lg, EvAttempt (Raised e) :: trace lg)
    | Returned _ =>
        if decide (mdelay < 0)
        then (Raised (ValueError "sleep length must be non-negative"),
              final lg, EvAttempt (Raised e) :: trace lg)
        else
          let r := wrapper_loop backoff logger_func func args
                     (mtries - 1) (mdelay * backoff) (final lg) in
          (result r, final r,
           EvAttempt (Raised e) :: trace lg ++ EvSleep mdelay :: trace r)
    end.
Proof.
  intros Hgt Hcall He. rewrite wrapper_loop_equation_1.
  destruct (decide (mtries > 0)) as [Hp|Hn]; [|lia].
  cbn. unfold try_except_Exception, call. rewrite Hcall, He.
  unfold mbind, M_bind, bind, result, final, trace.
  destruct (log _ _ _) as [[[[]|e'] s1] t1]; cbn.
  - unfold sleep. destruct (decide (mdelay < 0)); cbn.
    + by rewrite app_nil_r.
    + by destruct (wrapper_loop _ _ _ _ _ _ _) as [[r s2] t2].
  - reflexivity.
Qed.

(** Logging calls nothing but the sink and leaves the wrapped
    function's state alone. *)
Lemma log_trace logger_func msg s :
  let lg := log (V:=V) logger_func msg s in
  op_st (final lg) = op_st s
  /\ attempts (trace lg) = []
  /\ finals (trace lg) = []
  /\ calls (trace lg) = []
  /\ waits (trace lg) = []
  /\ logs (trace lg) = match logger_func with Some _ => [msg] | None => [] end.
Proof.
  destruct logger_func as [f|]; cbn; [|done].
  by destruct (f msg (sink_st s)) as [o l].
Qed.

(** A quiet logger returns. *)
Lemma log_quiet logger_func msg s :
  logger_quiet logger_func ->
  result (log (V:=V) logger_func msg s) = Returned tt.
Proof.
  destruct logger_func as [f|]; cbn; [|done].
  intros Hq. specialize (Hq msg (sink_st s)).
  destruct (f msg (sink_st s)) as [o l]. cbn in Hq. by subst o.
Qed.




Lemma outcomes_S func args os k :
  nth_outcome func args os <$> seq 0 (S k)
  = nth_outcome func args os 0
    :: (nth_outcome func args (op_call func args os).2 <$> seq 0 k).
Proof.
  cbn [seq fmap list_fmap]. f_equal.
  rewrite <- fmap_S_seq, <- list_fmap_compose. by apply list_fmap_ext.
Qed.



(** The call after the loop, spelled out. *)
Lemma call_final func args s :
  call EvFinal func args s
  = (nth_outcome func args (op_st s) 0,
     RState (op_run func args (op_st s) 1) (sink_st s),
     [EvFinal (nth_outcome func args (op_st s) 0)]).
Proof.
  unfold call, nth_outcome. cbn [op_run].
  by destruct (op_call func args (op_st s)) as [o st].
Qed.



End rounds.

(** Case analysis on the first round of a loop that is entered: the
    call returns, raises what the handler catches, or raises what it
    does not. *)
Ltac first_round Hpos v e st Hcall He :=
  match goal with
  | |- context [wrapper_loop ?b ?lf ?f ?a ?mt ?md ?s] =>
      destruct (op_call f a (op_st s)) as [[v|e] st] eqn:Hcall;
      [ rewrite (wrapper_loop_return b lf f a mt md s v st Hpos Hcall)
      | destruct (exn_is_Exception e) eqn:He;
        [ rewrite (wrapper_loop_caught b lf f a mt md s e st Hpos Hcall He)
        | rewrite (wrapper_loop_uncaught b lf f a mt md s e st Hpos Hcall He) ] ]
  end.

(** *** Properties of every run *)

Section runs.
Context {A V St Lg : Type}.
Implicit Types (func : operation A V St) (args : A) (s : rstate St Lg).
Implicit Types (logger_func : option (sink Lg)) (mtries mdelay backoff : Z).








End runs.

(** *** The properties the specification states *)

Section claims.
Context {A V St Lg : Type}.
Implicit Types (func : operation A V St) (args : A) (s : rstate St Lg).
Implicit Types (logger_func : option (sink Lg)) (tries delay backoff : Z).






(** C8. With [tries = 1], whatever the function, the logger and the
    delays: exactly one call is made inside the loop; the only other
    call there can be is the one after the loop, so the function is
    called at most twice; no call inside the loop comes after a wait;
    and a wait, if any, is [delay] itself, with no backoff applied. *)
Theorem retry_single_try_never_loops_again
    delay backoff logger_func func args s :
  let t := trace (retry 1 delay backoff logger_func func args s) in
  length (attempts t) = 1%nat
  /\ (length (finals t) <= 1)%nat
  /\ calls t = attempts t ++ finals t
  /\ attempt_after_wait t = false
  /\ (waits t = [] \/ waits t = [delay]).
Proof.
  intros t. subst t. unfold retry, decorator, wrapper.
  assert (0 < 1) as Hpos by lia.
  first_round Hpos v e st Hcall He;
    try (cbn; repeat split; try done; try lia; by left).
  cbv zeta.
  rewrite (wrapper_loop_exit _ _ _ _ (1 - 1)), call_final by lia.
  unfold log, result, final, trace.
  destruct logger_func as [f|]; [destruct (f _ _) as [[e'|] l']|];
    cbn [fst snd]; try destruct (decide (delay < 0));
    cbn; repeat split; try done; try lia; (by left) || (by right).
Qed.

(** C9. With [tries <= 0] the loop body never runs: the wrapper makes
    the one call after the loop and hands back its outcome; the sink is
    not called, nothing is waited for, and the sink's state is as it
    was. *)
Theorem retry_nonpositive_tries_calls_once
    tries delay backoff logger_func func args s :
  tries <= 0 ->
  let r := retry tries delay backoff logger_func func args s in
  let o := (op_call func args (op_st s)).1 in
  result r = o
  /\ trace r = [EvFinal o]
  /\ final r = RState (op_call func args (op_st s)).2 (sink_st s).
Proof.
  intros Ht r o. subst r o. unfold retry, decorator, wrapper.
  by rewrite wrapper_loop_exit, call_final.
Qed.

End claims.

(** *** The unguarded sink *)

Section unguarded.
Context {A V St Lg : Type}.


End unguarded.


(** *** The scenarios of the specification, run *)

(** Raises on calls 1 and 2, returns ["ok"] on call 3; three tries,
    delay 1, backoff 2: two messages, waits of 1 and 2, ["ok"]. *)
Example flaky_scenario :
  let r := retry 3 1 2 (Some collect) flaky () (RState 0%nat []) in
  result r = Returned "ok"%string
  /\ logs (trace r)
     = ["flaky - Retrying in 1s... (2 tries left). Error: boom"%string;
        "flaky - Retrying in 2s... (1 tries left). Error: boom"%string]
  /\ waits (trace r) = [1; 2]
  /\ length (calls (trace r)) = 3%nat.
Proof. vm_compute. done. Qed.

(** Always raises [ValueError("boom")]; two tries: two messages, then
    the call after the loop raises to the caller. *)
Example always_boom_scenario :
  let r := retry 2 1 2 (Some collect) always_boom () (RState 0%nat []) in
  result r = Raised (ValueError "boom")
  /\ length (logs (trace r)) = 2%nat
  /\ last (trace r) = Some (EvFinal (Raised (ValueError "boom")))
  /\ length (calls (trace r)) = 3%nat.
Proof. vm_compute. done. Qed.

(** A constant delay: [backoff = 1]. *)
Example constant_delay_scenario :
  waits (trace (retry 3 5 1 (Some collect) always_boom () (RState 0%nat [])))
  = [5; 5; 5].
Proof. vm_compute. done. Qed.

(** An exception that does not derive from [Exception] is not retried. *)
Example keyboard_interrupt_scenario :
  retry 3 1 2 (Some collect)
    (Operation "stop" (fun (_ : ()) (c : nat) =>
       (Raised (V:=string) KeyboardInterrupt, S c)))
    () (RState 0%nat [])
  = (Raised KeyboardInterrupt, RState 1%nat [], [EvAttempt (Raised KeyboardInterrupt)]).
Proof. vm_compute. done. Qed.

(** A negative delay: [time.sleep] raises in the handler. *)
Example negative_delay_scenario :
  result (retry 3 (-1) 2 (Some collect) always_boom () (RState 0%nat []))
  = Raised (ValueError "sleep length must be non-negative").
Proof. vm_compute. done. Qed.

(** One try: the failed call is reported, [delay] is waited for, and
    the call after the loop is the second and last call. *)
Example single_try_scenario :
  trace (retry 1 4 2 (Some collect) always_boom () (RState 0%nat []))
  = [EvAttempt (Raised (ValueError "boom"));
     EvLog "always_boom - Retrying in 4s... (0 tries left). Error: boom";
     EvSleep 4;
     EvFinal (Raised (ValueError "boom"))].
Proof. vm_compute. done. Qed.

(** *** The theorems at work *)





Lemma retry_nonpositive_tries_calls_once_witness :
  trace (retry 0 1 2 (Some broken_sink) always_boom () (RState 0%nat ()))
  = [EvFinal (Raised (ValueError "boom"))]
  /\ trace (retry (-3) 1 2 (Some broken_sink) always_boom () (RState 0%nat ()))
     = [EvFinal (Raised (ValueError "boom"))].
Proof.
  split.
  - apply (retry_nonpositive_tries_calls_once 0 1 2 (Some broken_sink)
             always_boom () (RState 0%nat ())). lia.
  - apply (retry_nonpositive_tries_calls_once (-3) 1 2 (Some broken_sink)
             always_boom () (RState 0%nat ())). lia.
Defined.

(** *** Further properties of the wrapper *)

Section more_runs.
Context {A V St Lg : Type}.
Implicit Types (func : operation A V St) (args : A) (s : rstate St Lg).
Implicit Types (logger_func : option (sink Lg)) (mtries mdelay backoff : Z).

(** The counts of a run, whatever the function, the logger and the
    delays: at least one call and at most one more than the rounds, at
    most one call after the loop, and no more sink calls or waits than
    calls inside the loop. *)
Lemma counts_of_run backoff logger_func func args (n : nat) :
  forall mtries mdelay s,
  Z.to_nat mtries = n ->
  let t := trace (wrapper_loop backoff logger_func func args mtries mdelay s) in
  calls t = attempts t ++ finals t
  /\ (length (attempts t) <= n)%nat
  /\ (length (finals t) <= 1)%nat
  /\ (1 <= length (calls t))%nat
  /\ (length (logs t) <= length (attempts t))%nat
  /\ (length (waits t) <= length (attempts t))%nat.
Proof.
  induction n as [|n IH]; intros mtries mdelay s Hn; cbv zeta.
  - rewrite wrapper_loop_exit, call_final by lia. cbn. repeat split; lia.
  - assert (0 < mtries) as Hpos by lia.
    first_round Hpos v e st Hcall He;
      try (cbn; repeat split; (done || lia)).
    cbv zeta.
    destruct (log_trace (V:=V) logger_func (retry_msg func mdelay mtries e)
                (RState st (sink_st s))) as (_ & Hat & Hfi & Hca & Hwa & Hlo).
    set (lg := log (V:=V) logger_func (retry_msg func mdelay mtries e)
                 (RState st (sink_st s))) in *.
    assert (length (logs (trace lg)) <= 1)%nat as Hlo1
      by (rewrite Hlo; destruct logger_func; cbn; lia).
    destruct (IH (mtries - 1) (mdelay * backoff) (final lg) ltac:(lia))
      as (Hc & Ha & Hf & H1 & Hl & Hw).
    destruct (result lg) as [[]|e']; [destruct (decide (mdelay < 0))|];
      unfold trace, calls, attempts, finals, logs, waits in *;
      cbn [snd omap list_omap]; rewrite ?omap_app; cbn [omap list_omap];
      rewrite ?Hat, ?Hfi, ?Hca, ?Hwa, ?length_app; cbn [app length];
      rewrite ?app_nil_r.
    + repeat split; (done || lia).
    + rewrite Hc. repeat split; (done || lia).
    + repeat split; (done || lia).
Qed.

(** The wrapper does nothing to the wrapped function but call it: the
    outcomes it got are those of the first calls of the function from
    the state the run began in, and the state it leaves is the one those
    calls lead to. *)
Lemma calls_of_run backoff logger_func func args (n : nat) :
  forall mtries mdelay s,
  Z.to_nat mtries = n ->
  let r := wrapper_loop backoff logger_func func args mtries mdelay s in
  calls (trace r)
  = (nth_outcome func args (op_st s) <$> seq 0 (length (calls (trace r))))
  /\ op_st (final r) = op_run func args (op_st s) (length (calls (trace r))).
Proof.
  induction n as [|n IH]; intros mtries mdelay s Hn; cbv zeta.
  - by rewrite wrapper_loop_exit, call_final by lia.
  - assert (0 < mtries) as Hpos by lia.
    assert (nth_outcome func args (op_st s) 0 = (op_call func args (op_st s)).1)
      as Ho by reflexivity.
    assert (op_run func args (op_st s) 1 = (op_call func args (op_st s)).2)
      as Hs by reflexivity.
    first_round Hpos v e st Hcall He;
      try (unfold trace, final, calls; cbn [fst snd omap list_omap length op_st];
           cbn [seq fmap list_fmap]; by rewrite Ho, Hs).
    cbv zeta.
    destruct (log_trace (V:=V) logger_func (retry_msg func mdelay mtries e)
                (RState st (sink_st s))) as (Hst & _ & _ & Hca & _).
    set (lg := log (V:=V) logger_func (retry_msg func mdelay mtries e)
                 (RState st (sink_st s))) in *.
    cbn [op_st] in Hst.
    destruct (IH (mtries - 1) (mdelay * backoff) (final lg) ltac:(lia))
      as (Hc & Hf).
    rewrite Hst in Hc, Hf.
    destruct (result lg) as [[]|e']; [destruct (decide (mdelay < 0))|];
      unfold trace, final, calls in *;
      cbn [fst snd omap list_omap]; rewrite ?omap_app; cbn [omap list_omap];
      rewrite ?Hca; cbn [app length].
    + cbn [seq fmap list_fmap]. by rewrite Hst, Ho, Hs.
    + rewrite outcomes_S, Ho. cbn [op_run]. rewrite Hcall. cbn [fst snd].
      split; [by f_equal|done].
    + cbn [seq fmap list_fmap]. by rewrite Hst, Ho, Hs.
Qed.

(** In every run of the wrapper the function is called at least once
    and at most [max(tries, 0) + 1] times, of which at most once after
    the loop; the sink is called, and the clock waited for, at most once
    per call inside the loop. *)
Theorem retry_call_bounds tries delay backoff logger_func func args s :
  let t := trace (retry tries delay backoff logger_func func args s) in
  (1 <= length (calls t) <= S (Z.to_nat tries))%nat
  /\ calls t = attempts t ++ finals t
  /\ (length (finals t) <= 1)%nat
  /\ (length (logs t) <= length (attempts t) <= Z.to_nat tries)%nat
  /\ (length (waits t) <= length (attempts t))%nat.
Proof.
  intros t. subst t. unfold retry, decorator, wrapper.
  destruct (counts_of_run backoff logger_func func args (Z.to_nat tries)
              tries delay s eq_refl) as (Hc & Ha & Hf & H1 & Hl & Hw).
  rewrite Hc in *. rewrite length_app in *. repeat split; (done || lia).
Qed.

(** The wrapper does nothing to the function but call it with the same
    arguments: in every run the outcomes it got are those of the first
    calls of the function from the state the run began in, and the state
    it leaves behind is the one those calls lead to. *)
Theorem retry_only_calls_the_function tries delay backoff logger_func func args s :
  let r := retry tries delay backoff logger_func func args s in
  calls (trace r)
  = (nth_outcome func args (op_st s) <$> seq 0 (length (calls (trace r))))
  /\ op_st (final r) = op_run func args (op_st s) (length (calls (trace r))).
Proof.
  apply (calls_of_run backoff logger_func func args (Z.to_nat tries)
           tries delay s eq_refl).
Qed.

(** A function whose first call returns is called once and no more,
    whatever [tries], the delays and the logger are: the wrapper returns
    that value, calls no sink, makes no wait and leaves the sink's state
    alone. *)
Theorem retry_first_call_returns tries delay backoff logger_func func args s v :
  (op_call func args (op_st s)).1 = Returned v ->
  let r := retry tries delay backoff logger_func func args s in
  result r = Returned v
  /\ calls (trace r) = [Returned v]
  /\ logs (trace r) = []
  /\ waits (trace r) = []
  /\ final r = RState (op_call func args (op_st s)).2 (sink_st s).
Proof.
  intros Hv r. subst r. unfold retry, decorator, wrapper.
  destruct (op_call func args (op_st s)) as [o st] eqn:Hcall. cbn in Hv. subst o.
  destruct (decide (tries <= 0)) as [Hle|Hgt].
  - rewrite wrapper_loop_exit, call_final by done. unfold nth_outcome. cbn.
    by rewrite Hcall.
  - by rewrite (wrapper_loop_return _ _ _ _ _ _ _ v st) by (done || lia).
Qed.



(** Without a sink nothing is reported and the sink's state is as it
    was. *)
Lemma no_sink_run backoff func args (n : nat) :
  forall mtries mdelay s,
  Z.to_nat mtries = n ->
  let r := wrapper_loop (Lg:=Lg) backoff None func args mtries mdelay s in
  logs (trace r) = [] /\ sink_st (final r) = sink_st s.
Proof.
  induction n as [|n IH]; intros mtries mdelay s Hn; cbv zeta.
  - by rewrite wrapper_loop_exit, call_final by lia.
  - assert (0 < mtries) as Hpos by lia.
    first_round Hpos v e st Hcall He; try done.
    cbn [log result final trace fst snd].
    destruct (decide (mdelay < 0)); [done|].
    destruct (IH (mtries - 1) (mdelay * backoff) (RState st (sink_st s))
                ltac:(lia)) as (Hl & Hs).
    unfold logs, trace, final in *. cbn [fst snd omap list_omap app].
    by rewrite Hl, Hs.
Qed.

(** A sink that returns changes nothing but the reporting: the run has
    the same result, the same calls, the same waits and the same effect
    on the function as the run with no sink. *)
Lemma quiet_sink_run backoff (f : sink Lg) func args (n : nat) :
  sink_quiet f ->
  forall mtries mdelay s s',
  Z.to_nat mtries = n -> op_st s = op_st s' ->
  let r := wrapper_loop backoff (Some f) func args mtries mdelay s in
  let r' := wrapper_loop backoff None func args mtries mdelay s' in
  result r = result r'
  /\ calls (trace r) = calls (trace r')
  /\ waits (trace r) = waits (trace r')
  /\ op_st (final r) = op_st (final r').
Proof.
  intros Hq. induction n as [|n IH]; intros mtries mdelay s s' Hn Hs; cbv zeta.
  - rewrite !wrapper_loop_exit, !call_final by lia. cbn. by rewrite Hs.
  - assert (0 < mtries) as Hpos by lia.
    destruct (op_call func args (op_st s')) as [[v|e] st] eqn:Hc'.
    + rewrite (wrapper_loop_return _ _ _ _ _ _ s v st Hpos) by (by rewrite Hs).
      by rewrite (wrapper_loop_return _ _ _ _ _ _ s' v st Hpos Hc').
    + assert (op_call func args (op_st s) = (Raised e, st)) as Hc
        by (by rewrite Hs).
      destruct (exn_is_Exception e) eqn:He.
      * rewrite (wrapper_loop_caught _ _ _ _ _ _ s e st Hpos Hc He).
        rewrite (wrapper_loop_caught _ _ _ _ _ _ s' e st Hpos Hc' He).
        cbv zeta.
        destruct (log_trace (V:=V) (Some f) (retry_msg func mdelay mtries e)
                    (RState st (sink_st s))) as (Hst & _ & _ & Hca & Hwa & _).
        rewrite (log_quiet (Some f) _ _ Hq).
        set (lg := log (V:=V) (Some f) (retry_msg func mdelay mtries e)
                     (RState st (sink_st s))) in *.
        cbn [log result final trace fst snd].
        destruct (decide (mdelay < 0)); unfold result, final, trace, calls, waits in *;
          cbn [fst snd omap list_omap app]; [by rewrite Hca, Hwa|].
        destruct (IH (mtries - 1) (mdelay * backoff) lg.1.2
                    (RState st (sink_st s')) ltac:(lia) Hst)
          as (Hr & Hcalls & Hw & Hf).
        unfold result, final, trace, calls, waits in *.
        rewrite !omap_app, Hca, Hwa. cbn [omap list_omap app].
        by rewrite Hr, Hcalls, Hw, Hf.
      * rewrite (wrapper_loop_uncaught _ _ _ _ _ _ s e st Hpos Hc He).
        by rewrite (wrapper_loop_uncaught _ _ _ _ _ _ s' e st Hpos Hc' He).
Qed.

Lemma omap_seq_S {B} (g h : nat -> option B) (a m : nat) :
  (forall i, g (S i) = h i) -> omap g (seq (S a) m) = omap h (seq a m).
Proof.
  intros Hgh. revert a. induction m as [|m IH]; intros a; [done|].
  cbn [seq omap list_omap]. by rewrite Hgh, IH.
Qed.



End more_runs.

Section more_claims.
Context {A V St Lg : Type}.
Implicit Types (func : operation A V St) (args : A) (s : rstate St Lg).
Implicit Types (logger_func : option (sink Lg)) (tries delay backoff : Z).

(** Reporting is apart from retrying.  With [logger_func = None] no
    message is produced and the sink's state is untouched, while the
    rounds and waits go on as before: the run has the same result, calls,
    waits and effect on the function as the run with any sink that
    returns. *)
Theorem retry_reporting_changes_nothing
    tries delay backoff (f : sink Lg) func args s :
  sink_quiet f ->
  let r := retry tries delay backoff (Some f) func args s in
  let r' := retry tries delay backoff None func args s in
  logs (trace r') = []
  /\ sink_st (final r') = sink_st s
  /\ result r' = result r
  /\ calls (trace r') = calls (trace r)
  /\ waits (trace r') = waits (trace r)
  /\ op_st (final r') = op_st (final r).
Proof.
  intros Hq r r'. subst r r'. unfold retry, decorator, wrapper.
  destruct (no_sink_run backoff func args (Z.to_nat tries) tries delay s eq_refl)
    as (Hl & Hs).
  destruct (quiet_sink_run backoff f func args (Z.to_nat tries) Hq
              tries delay s s eq_refl eq_refl) as (Hr & Hc & Hw & Hf).
  by rewrite Hl, Hs, Hr, Hc, Hw, Hf.
Qed.





End more_claims.

(** *** [log_exceptions] *)

Section log_exceptions_facts.
Context {A V : Type}.

Lemma log_exceptions_returns {W} (logging : string -> sink W)
    (func : pyfunction A V W) args w v w1 :
  op_call (fn_op func) args w = (Returned v, w1) ->
  op_call (fn_op (log_exceptions logging func)) args w = (Returned v, w1).
Proof. intros Hc. cbn. by rewrite Hc. Qed.

Lemma log_exceptions_uncaught {W} (logging : string -> sink W)
    (func : pyfunction A V W) args w e w1 :
  op_call (fn_op func) args w = (Raised e, w1) ->
  exn_is_Exception e = false ->
  op_call (fn_op (log_exceptions logging func)) args w = (Raised e, w1).
Proof. intros Hc He. cbn. by rewrite Hc, He. Qed.

Lemma log_exceptions_caught {W} (logging : string -> sink W)
    (func : pyfunction A V W) args w e w1 :
  op_call (fn_op func) args w = (Raised e, w1) ->
  exn_is_Exception e = true ->
  op_call (fn_op (log_exceptions logging func)) args w
  = (match (logging (fn_module func) (log_exceptions_msg func e) w1).1 with
     | None => Raised e
     | Some e' => Raised e'
     end,
     (logging (fn_module func) (log_exceptions_msg func e) w1).2).
Proof.
  intros Hc He. cbn. rewrite Hc, He.
  by destruct (logging _ _ w1) as [r w2].
Qed.

(** Decorating a function with [log_exceptions] changes nothing of
    what a call gives its caller, as long as [logger.error] returns: the
    value returned or the exception raised is the function's own,
    whatever the function does to the state, the log included.  The
    wrapper also keeps the function's [__name__] and [__module__]. *)
Theorem log_exceptions_is_transparent {W} (logging : string -> sink W)
    (func : pyfunction A V W) args w :
  sink_quiet (logging (fn_module func)) ->
  (op_call (fn_op (log_exceptions logging func)) args w).1
  = (op_call (fn_op func) args w).1
  /\ op_name (fn_op (log_exceptions logging func)) = op_name (fn_op func)
  /\ fn_module (log_exceptions logging func) = fn_module func.
Proof.
  intros Hq. split; [|done].
  destruct (op_call (fn_op func) args w) as [[v|e] w1] eqn:Hc.
  - by rewrite (log_exceptions_returns _ _ _ _ v w1).
  - destruct (exn_is_Exception e) eqn:He.
    + rewrite (log_exceptions_caught _ _ _ _ e w1) by done. cbn.
      by rewrite (Hq _ w1).
    + by rewrite (log_exceptions_uncaught _ _ _ _ e w1).
Qed.

(** The state a call of the decorated function leaves: that of the
    function's own call, and after it one call of [logger.error] with
    the text [Exception in <name>: <str(e)>] exactly when the function
    raised an exception that derives from [Exception]; a returned value
    and any other exception are not logged.  This holds whether or not
    [logger.error] returns. *)
Theorem log_exceptions_logs_caught_failures_only {W} (logging : string -> sink W)
    (func : pyfunction A V W) args w :
  (op_call (fn_op (log_exceptions logging func)) args w).2
  = feed (logging (fn_module func))
      (option_list (logged_failure func (op_call (fn_op func) args w).1))
      (op_call (fn_op func) args w).2.
Proof.
  destruct (op_call (fn_op func) args w) as [[v|e] w1] eqn:Hc.
  - by rewrite (log_exceptions_returns _ _ _ _ v w1).
  - destruct (exn_is_Exception e) eqn:He.
    + rewrite (log_exceptions_caught _ _ _ _ e w1) by done. cbn. by rewrite He.
    + rewrite (log_exceptions_uncaught _ _ _ _ e w1) by done. cbn. by rewrite He.
Qed.

(** [logger.error] is called in the handler with no guard: when it
    raises, its exception reaches the caller in place of the function's. *)
Theorem log_exceptions_raising_logger {W} (logging : string -> sink W)
    (func : pyfunction A V W) args w e w1 e' w2 :
  op_call (fn_op func) args w = (Raised e, w1) ->
  exn_is_Exception e = true ->
  logging (fn_module func) (log_exceptions_msg func e) w1 = (Some e', w2) ->
  op_call (fn_op (log_exceptions logging func)) args w = (Raised e', w2).
Proof.
  intros Hc He Hl. rewrite (log_exceptions_caught _ _ _ _ e w1) by done.
  by rewrite Hl.
Qed.

(** Decorating twice logs every caught failure twice, with the same
    text and on the same logger, since the inner wrapper carries the
    function's names; the caller still gets the function's exception. *)
Theorem log_exceptions_twice {W} (logging : string -> sink W)
    (func : pyfunction A V W) args w e w1 :
  sink_quiet (logging (fn_module func)) ->
  op_call (fn_op func) args w = (Raised e, w1) ->
  exn_is_Exception e = true ->
  op_call (fn_op (log_exceptions logging (log_exceptions logging func))) args w
  = (Raised e,
     feed (logging (fn_module func))
       [log_exceptions_msg func e; log_exceptions_msg func e] w1).
Proof.
  intros Hq Hc He.
  pose proof (log_exceptions_caught logging func args w e w1 Hc He) as Hin.
  rewrite (Hq _ w1) in Hin.
  by rewrite (log_exceptions_caught logging (log_exceptions logging func)
                args w e _ Hin He), (Hq _ _).
Qed.

End log_exceptions_facts.

(** *** Decorators stacked *)

Section stacked.
Context {A V St Lg Lg' : Type}.
Implicit Types (func : pyfunction A V St) (args : A).
Implicit Types (logging : string -> sink Lg') (logger_func : option (sink Lg)).

Lemma feed_app (f : sink Lg') (ms1 ms2 : list string) (l : Lg') :
  feed f (ms1 ++ ms2) l = feed f ms2 (feed f ms1 l).
Proof. revert l. induction ms1 as [|m ms1 IH]; intros l; [done|]. apply IH. Qed.

Lemma logged_failures_S func args (s : St) i :
  logged_failures func args s (S i)
  = option_list (logged_failure func (op_call (fn_op func) args s).1)
    ++ logged_failures func args (op_call (fn_op func) args s).2 i.
Proof.
  unfold logged_failures. cbn [seq omap list_omap].
  rewrite (omap_seq_S _ (fun j =>
             logged_failure func
               (nth_outcome (fn_op func) args (op_call (fn_op func) args s).2 j)))
    by done.
  unfold nth_outcome at 1. cbn [op_run].
  by destruct (logged_failure func _).
Qed.

Lemma on_snd_quiet (f : sink Lg') :
  sink_quiet f -> sink_quiet (on_snd (W1:=St) f).
Proof.
  intros Hq msg [s l]. unfold on_snd. cbn. specialize (Hq msg l).
  by destruct (f msg l) as [r l'].
Qed.

(** A function that does not read the log, decorated with
    [log_exceptions], over any number of calls: its own state goes the
    way it goes undecorated, and the logger has been given one record
    per call that raised an [Exception], in order, and nothing else. *)
Lemma log_exceptions_run logging func args (i : nat) :
  forall (s : St) (l : Lg'),
  op_run (fn_op (log_exceptions (fun name => on_snd (logging name)) (on_fst func)))
    args (s, l) i
  = (op_run (fn_op func) args s i,
     feed (logging (fn_module func)) (logged_failures func args s i) l).
Proof.
  induction i as [|i IH]; intros s l; [done|].
  rewrite logged_failures_S, feed_app. cbn [op_run].
  pose proof (log_exceptions_logs_caught_failures_only
                (fun name => on_snd (logging name)) (on_fst func) args (s, l)) as Hst.
  cbn [fn_op on_fst op_call fst snd fn_module] in Hst.
  destruct (op_call (fn_op func) args s) as [o s1] eqn:Hc.
  cbn [fst snd] in *.
  assert (feed (on_snd (logging (fn_module func)))
            (option_list (logged_failure (on_fst (W2:=Lg') func) o)) (s1, l)
          = (s1, feed (logging (fn_module func))
                   (option_list (logged_failure func o)) l)) as Hfeed.
  { destruct o as [v|e]; [done|]. cbn. destruct (exn_is_Exception e); [|done].
    cbn. unfold on_snd. cbn. by destruct (logging _ _ l) as [r l2]. }
  rewrite Hfeed in Hst. rewrite Hst. apply IH.
Qed.

Lemma log_exceptions_outcomes logging func args (s : St) (l : Lg') (i : nat) :
  sink_quiet (logging (fn_module func)) ->
  nth_outcome
    (fn_op (log_exceptions (fun name => on_snd (logging name)) (on_fst func)))
    args (s, l) i
  = nth_outcome (fn_op func) args s i.
Proof.
  intros Hq. unfold nth_outcome at 1. rewrite log_exceptions_run.
  destruct (log_exceptions_is_transparent
              (fun name => on_snd (logging name)) (on_fst func) args
              (op_run (fn_op func) args s i,
               feed (logging (fn_module func)) (logged_failures func args s i) l))
    as [-> _]; [by apply on_snd_quiet|].
  unfold nth_outcome. cbn.
  by destruct (op_call (fn_op func) args _) as [o s1].
Qed.


(** Over any number of calls, a function that does not read the log
    behaves the same decorated with [log_exceptions] as undecorated, the
    logger being one that returns: every call has the same outcome, the
    function's state goes the same way, and the logger is given one
    record per call that raised an [Exception], in order, and no other. *)
Theorem log_exceptions_over_calls logging func args (s : St) (l : Lg') (i : nat) :
  sink_quiet (logging (fn_module func)) ->
  let d := log_exceptions (fun name => on_snd (logging name)) (on_fst func) in
  nth_outcome (fn_op d) args (s, l) i = nth_outcome (fn_op func) args s i
  /\ op_run (fn_op d) args (s, l) i
     = (op_run (fn_op func) args s i,
        feed (logging (fn_module func)) (logged_failures func args s i) l).
Proof.
  intros Hq d. subst d. split.
  - by apply log_exceptions_outcomes.
  - apply log_exceptions_run.
Qed.



End stacked.

Section nested.
Context {A V St Lg Lg' : Type}.
Implicit Types (func : pyfunction A V St) (args : A).






End nested.

(** *** The base class of the tools *)

Section enhanced_tool_facts.
Import EnhancedTool.
Context {A W : Type}.
Implicit Types (logger : tool_logger W) (cls : string).
Implicit Types (super_call : A -> W -> outcome (pyvalue) * W).


(** When the framework's call raises an [Exception], the tool answers
    with the very text a [ToolExecutionError] for this tool's class and
    that exception's text renders as, after one call of [logger.error]. *)
Theorem call_failure_reads_as_ToolExecutionError
    cls logger super_call (args : A) (w : W) e w1 :
  super_call args w = (Raised e, w1) ->
  exn_is_Exception e = true ->
  sink_quiet (error logger) ->
  __call__ cls logger super_call args w
  = (Returned (ToolExecutionError_str (MkToolExecutionError cls (exn_str e))),
     (error logger ("Error in tool " +:+ cls +:+ ": " +:+ exn_str e) w1).2).
Proof.
  intros Hc He Hq. unfold __call__, call_body. rewrite Hc, He.
  pose proof (Hq ("Error in tool " +:+ cls +:+ ": " +:+ exn_str e) w1) as Hl.
  destruct (error logger _ w1) as [o w2]. cbn in Hl. by subst o.
Qed.

(** What comes back for each kind of result, with loggers that return:
    a string as it is and with nothing logged; ["No result available."]
    for [None]; [str(result)] for another object, after one warning. *)
Theorem call_converts_result cls logger super_call (args : A) (w : W) v w1 :
  super_call args w = (Returned v, w1) ->
  sink_quiet (warning logger) ->
  __call__ cls logger super_call args w
  = match v with
    | PyStr s => (Returned s, w1)
    | PyNone =>
        (Returned "No result available."%string,
         (warning logger (non_string_warning cls v) w1).2)
    | PyObject _ (Returned s) =>
        (Returned s, (warning logger (non_string_warning cls v) w1).2)
    | PyObject _ (Raised e) =>
        __call__ cls logger
          (fun _ _ => (Raised e, (warning logger (non_string_warning cls v) w1).2))
          args w
    end.
Proof.
  intros Hc Hq. unfold __call__, call_body. rewrite Hc.
  destruct v as [s| |ty [s|e]]; [done|..].
  - pose proof (Hq (non_string_warning cls PyNone) w1) as Hl.
    destruct (warning logger _ w1) as [o w2]. cbn in Hl. by subst o.
  - pose proof (Hq (non_string_warning cls (PyObject ty (Returned s))) w1) as Hl.
    destruct (warning logger _ w1) as [o w2]. cbn in Hl. by subst o.
  - pose proof (Hq (non_string_warning cls (PyObject ty (Raised e))) w1) as Hl.
    destruct (warning logger _ w1) as [o w2]. cbn in Hl. by subst o.
Qed.

End enhanced_tool_facts.

(** *** The further theorems at work *)

Lemma retry_first_call_returns_witness :
  result (retry 3 (-5) 2 (Some broken_sink) flaky () (RState 2%nat ()))
  = Returned "ok"%string
  /\ calls (trace (retry 3 (-5) 2 (Some broken_sink) flaky () (RState 2%nat ())))
     = [Returned "ok"%string].
Proof.
  destruct (retry_first_call_returns 3 (-5) 2 (Some broken_sink) flaky ()
              (RState 2%nat ()) "ok"%string) as (Hres & Hcalls & _);
    [reflexivity|].
  by split.
Defined.



Lemma retry_reporting_changes_nothing_witness :
  result (retry 3 1 2 None flaky () (RState 0%nat ([] : list string)))
  = result (retry 3 1 2 (Some collect) flaky () (RState 0%nat []))
  /\ logs (trace (retry 3 1 2 None flaky () (RState 0%nat ([] : list string))))
     = [].
Proof.
  destruct (retry_reporting_changes_nothing 3 1 2 collect flaky ()
              (RState 0%nat [])) as (Hlogs & _ & Hres & _);
    [by intros msg l|].
  by split.
Defined.


Lemma log_exceptions_is_transparent_witness :
  (op_call (fn_op (log_exceptions (fun name => on_snd (caplog name))
                     (on_fst boom_function))) () (0%nat, [])).1
  = Raised (ValueError "boom").
Proof.
  destruct (log_exceptions_is_transparent (fun name => on_snd (caplog name))
              (on_fst boom_function) () (0%nat, [])) as (Hres & _);
    [by intros msg [s l]|].
  exact Hres.
Defined.

Lemma log_exceptions_raising_logger_witness :
  op_call (fn_op (log_exceptions (fun _ => on_snd broken_sink)
                    (on_fst boom_function))) () (0%nat, ())
  = (Raised (RuntimeError "sink failed"), (1%nat, ())).
Proof.
  apply (log_exceptions_raising_logger (fun _ => on_snd broken_sink)
           (on_fst boom_function) () (0%nat, ()) (ValueError "boom") (1%nat, ()));
    reflexivity.
Defined.

Lemma log_exceptions_twice_witness :
  op_call (fn_op (log_exceptions (fun name => on_snd (caplog name))
                    (log_exceptions (fun name => on_snd (caplog name))
                       (on_fst boom_function)))) () (0%nat, [])
  = (Raised (ValueError "boom"),
     (1%nat, ["tools.sample:Exception in always_boom: boom"%string;
              "tools.sample:Exception in always_boom: boom"%string])).
Proof.
  apply (log_exceptions_twice (fun name => on_snd (caplog name))
           (on_fst boom_function) () (0%nat, []) (ValueError "boom") (1%nat, []));
    [by intros msg [s l]|reflexivity|reflexivity].
Defined.

Lemma log_exceptions_over_calls_witness :
  op_run (fn_op (log_exceptions (fun name => on_snd (caplog name))
                   (on_fst boom_function))) () (0%nat, []) 2
  = (2%nat, ["tools.sample:Exception in always_boom: boom"%string;
             "tools.sample:Exception in always_boom: boom"%string]).
Proof.
  destruct (log_exceptions_over_calls caplog boom_function () 0%nat [] 2)
    as (_ & Hrun); [by intros msg l|].
  exact Hrun.
Defined.





Lemma call_failure_reads_as_ToolExecutionError_witness :
  (EnhancedTool.__call__ "SampleTool" tools_logger
     (fun (_ : ()) w => (Raised (ValueError "boom"), w)) () []).1
  = Returned "Error executing SampleTool: boom"%string.
Proof.
  rewrite (call_failure_reads_as_ToolExecutionError "SampleTool" tools_logger
             (fun (_ : ()) w => (Raised (ValueError "boom"), w)) () []
             (ValueError "boom") []); [reflexivity|reflexivity|reflexivity|].
  by intros msg l.
Defined.

End Retry.

(** ** The properties of the fallback registry *)

Section registry_claims.
Import FallbackRegistry.
Context {Callable : Type}.
Implicit Types (fallbacks : gmap string Callable) (tool_name : string).

Lemma registered_snoc (regs : list (string * Callable)) tool_name (f : Callable) :
  registered (regs ++ [(tool_name, f)])
  = (register_fallback tool_name f (registered regs)).2.
Proof. unfold registered. by rewrite foldl_app. Qed.

(** A name under which nothing was registered is not a key of the
    dictionary. *)
Lemma registered_lookup_None (regs : list (string * Callable)) tool_name :
  tool_name ∉ regs.*1 -> registered regs !! tool_name = None.
Proof.
  induction regs as [|[k f] regs IH] using rev_ind; intros Hnot.
  - apply lookup_empty.
  - rewrite registered_snoc. cbn.
    rewrite fmap_app, not_elem_of_app in Hnot. destruct Hnot as [Hregs Hk].
    cbn in Hk. rewrite not_elem_of_cons in Hk. destruct Hk as [Hk _].
    rewrite lookup_insert_ne by done. by apply IH.
Qed.

(** C6. Registering [a] and then [b] under one name: the lookup of
    that name returns [b]; the dictionary is the one that registering
    [b] alone gives, so nothing of [a] is left; and the second
    registration adds no entry. *)
Theorem register_fallback_last_write_wins fallbacks tool_name (a b : Callable) :
  let fb1 := (register_fallback tool_name a fallbacks).2 in
  let fb2 := (register_fallback tool_name b fb1).2 in
  (get_fallback tool_name fb2).1 = Returned (Some b)
  /\ fb2 = (register_fallback tool_name b fallbacks).2
  /\ size fb2 = size fb1.
Proof.
  cbn. split; [by rewrite lookup_insert_eq|]. split.
  - apply insert_insert_eq.
  - apply map_size_insert_Some. rewrite lookup_insert_eq. by exists a.
Qed.

(** C7. After any sequence of registrations on the fresh class, none
    included, the lookup of a name that is not among the registered
    ones returns [None]: it does not raise, and the dictionary is as
    it was. *)
Theorem get_fallback_unregistered_is_None
    (regs : list (string * Callable)) tool_name :
  tool_name ∉ regs.*1 ->
  get_fallback tool_name (registered regs) = (Returned None, registered regs).
Proof.
  intros Hnot. unfold get_fallback. by rewrite registered_lookup_None.
Qed.

(** C10. Registering under one name leaves the lookup of every other
    name as it was, and a lookup leaves the dictionary as it was. *)
Theorem register_fallback_frame fallbacks (k1 k2 : string) (f : Callable) :
  k1 <> k2 ->
  (get_fallback k2 (register_fallback k1 f fallbacks).2).1
  = (get_fallback k2 fallbacks).1
  /\ (get_fallback k2 fallbacks).2 = fallbacks
  /\ (get_fallback k1 fallbacks).2 = fallbacks.
Proof.
  intros Hne. cbn. by rewrite lookup_insert_ne.
Qed.

End registry_claims.

Lemma get_fallback_unregistered_is_None_witness :
  FallbackRegistry.get_fallback "unregistered-key"
    (FallbackRegistry.registered [("x", "A"); ("y", "B")]%string)
  = (Returned None, FallbackRegistry.registered [("x", "A"); ("y", "B")]%string)
  /\ FallbackRegistry.get_fallback (Callable:=string) "unregistered-key"
       (FallbackRegistry.registered [])
     = (Returned None, FallbackRegistry.registered []).
Proof.
  split.
  - apply (get_fallback_unregistered_is_None
             [("x", "A"); ("y", "B")]%string "unregistered-key").
    cbn. rewrite !not_elem_of_cons. repeat split; try done. apply not_elem_of_nil.
  - apply (get_fallback_unregistered_is_None [] "unregistered-key").
    apply not_elem_of_nil.
Defined.

Lemma register_fallback_frame_witness :
  (FallbackRegistry.get_fallback "y"
     (FallbackRegistry.register_fallback "x" "A"%string
        (FallbackRegistry.registered [("y", "B")]%string)).2).1
  = Returned (Some "B"%string).
Proof.
  destruct (register_fallback_frame
              (FallbackRegistry.registered [("y", "B")]%string) "x" "y" "A"%string)
    as (Hother & _); [done|].
  rewrite Hother. reflexivity.
Defined.

(** ** Further properties of the registry and of the error class *)

Section registry_more.
Import FallbackRegistry.
Context {Callable : Type}.
Implicit Types (regs : list (string * Callable)) (k : string).

Lemma registered_dom regs :
  dom (registered regs) = list_to_set (C:=gset string) regs.*1.
Proof.
  induction regs as [|r regs IH] using rev_ind.
  - unfold registered. cbn. apply dom_empty_L.
  - destruct r as [k f]. rewrite registered_snoc. cbn [register_fallback snd].
    rewrite dom_insert_L, IH, fmap_app, list_to_set_app_L. cbn.
    by rewrite (right_id_L ∅ (∪)), (comm_L (∪)).
Qed.

Lemma registered_lookup_latest regs1 regs2 k (f : Callable) :
  k ∉ regs2.*1 ->
  registered (regs1 ++ (k, f) :: regs2) !! k = Some f.
Proof.
  induction regs2 as [|r regs2 IH] using rev_ind; intros Hnot.
  - rewrite registered_snoc. cbn [register_fallback snd]. apply lookup_insert_eq.
  - destruct r as [k2 f2].
    rewrite fmap_app, not_elem_of_app in Hnot. destruct Hnot as [Hn Hk].
    cbn in Hk. rewrite not_elem_of_cons in Hk. destruct Hk as [Hk _].
    rewrite app_comm_cons, app_assoc, registered_snoc. cbn [register_fallback snd].
    rewrite lookup_insert_ne by done. by apply IH.
Qed.

(** A lookup finds a fallback exactly for the names under which one
    was registered: entries are never lost, and never made up. *)
Theorem get_fallback_finds_registered regs k :
  (exists f, (get_fallback k (registered regs)).1 = Returned (Some f))
  <-> k ∈ regs.*1.
Proof.
  rewrite <- (elem_of_list_to_set (C:=gset string)), <- registered_dom,
    elem_of_dom. unfold is_Some, get_fallback. cbn [fst].
  split; intros [f Hf]; exists f; congruence.
Qed.

(** After any sequence of registrations a lookup returns the fallback
    of the latest registration under that name, whatever was registered
    before it or under other names after it. *)
Theorem get_fallback_returns_latest regs1 regs2 k (f : Callable) :
  k ∉ regs2.*1 ->
  (get_fallback k (registered (regs1 ++ (k, f) :: regs2))).1 = Returned (Some f).
Proof.
  intros Hnot. unfold get_fallback. cbn [fst].
  by rewrite registered_lookup_latest.
Qed.

(** The registry holds one entry per name, however often a name was
    registered: its size is the number of different names. *)
Theorem registered_size regs :
  size (registered regs) = length (remove_dups regs.*1).
Proof.
  rewrite <- size_dom, registered_dom.
  rewrite <- (size_list_to_set (C:=gset string) (remove_dups regs.*1))
    by apply NoDup_remove_dups.
  f_equal. apply set_eq. intros x.
  by rewrite !elem_of_list_to_set, elem_of_remove_dups.
Qed.

(** Registrations under different names do not interfere: in either
    order they give the same dictionary. *)
Theorem register_fallback_commutes (fallbacks : gmap string Callable)
    (k1 k2 : string) (f1 f2 : Callable) :
  k1 <> k2 ->
  (register_fallback k2 f2 (register_fallback k1 f1 fallbacks).2).2
  = (register_fallback k1 f1 (register_fallback k2 f2 fallbacks).2).2.
Proof. intros Hne. cbn. by apply insert_insert_ne. Qed.

End registry_more.

(** Two texts [<name>: <rest>] with no colon in the names are equal
    only if names and rests are. *)
Lemma colon_split (n1 n2 m1 m2 : string) :
  mentions ":"%char n1 = false -> mentions ":"%char n2 = false ->
  n1 +:+ ": " +:+ m1 = n2 +:+ ": " +:+ m2 ->
  n1 = n2 /\ m1 = m2.
Proof.
  revert n2. induction n1 as [|a n1 IH]; intros [|b n2] H1 H2 Heq; cbn in *.
  - by inversion Heq.
  - inversion Heq; subst. by rewrite bool_decide_eq_true_2 in H2.
  - inversion Heq; subst. by rewrite bool_decide_eq_true_2 in H1.
  - inversion Heq; subst.
    apply orb_false_iff in H1 as [_ H1]. apply orb_false_iff in H2 as [_ H2].
    destruct (IH n2 H1 H2) as [-> ->]; done.
Qed.

(** The text of a [ToolExecutionError] tells which tool and which
    message it was made from, as long as tool names hold no colon: two
    such errors with the same text have the same attributes. *)
Theorem ToolExecutionError_str_inj (e1 e2 : ToolExecutionError) :
  mentions ":"%char (tool_name e1) = false ->
  mentions ":"%char (tool_name e2) = false ->
  ToolExecutionError_str e1 = ToolExecutionError_str e2 ->
  e1 = e2.
Proof.
  intros H1 H2 Heq. unfold ToolExecutionError_str in Heq.
  apply (inj (String.app "Error executing ")) in Heq.
  destruct e1 as [n1 m1], e2 as [n2 m2]. cbn [tool_name message] in *.
  by destruct (colon_split n1 n2 m1 m2) as [-> ->].
Qed.

Lemma get_fallback_returns_latest_witness :
  (FallbackRegistry.get_fallback "x"
     (FallbackRegistry.registered
        [("x", "A"); ("y", "B"); ("x", "C"); ("z", "D")]%string)).1
  = Returned (Some "C"%string).
Proof.
  apply (get_fallback_returns_latest [("x", "A"); ("y", "B")]%string
           [("z", "D")]%string "x" "C"%string).
  cbn. rewrite not_elem_of_cons. split; [done|apply not_elem_of_nil].
Defined.

Lemma register_fallback_commutes_witness :
  (FallbackRegistry.register_fallback "y" "B"%string
     (FallbackRegistry.register_fallback "x" "A"%string ∅).2).2
  = (FallbackRegistry.register_fallback "x" "A"%string
       (FallbackRegistry.register_fallback "y" "B"%string ∅).2).2.
Proof.
  by apply (register_fallback_commutes ∅ "x" "y" "A"%string "B"%string).
Defined.

Lemma ToolExecutionError_str_inj_witness :
  ToolExecutionError_str (MkToolExecutionError "search" "timed out")
  = "Error executing search: timed out"%string
  /\ MkToolExecutionError "search" ("timed" +:+ " out")
     = MkToolExecutionError "search" "timed out".
Proof.
  split; [reflexivity|].
  apply (ToolExecutionError_str_inj
           (MkToolExecutionError "search" ("timed" +:+ " out"))
           (MkToolExecutionError "search" "timed out"));
    reflexivity.
Defined.
